(* ============================================================================
   gender_pay_gap / code.py : a shallow embedding of the audit script.

   The script is a straight-line pandas/statsmodels program.  This development
   models
     - the regression formulas (the patsy strings passed to smf.ols),
       with a small parser for the fragment of the formula language they use;
     - the row-wise cleaning step (age bins, totalPay, logs, male dummy);
     - the grouped aggregations (groupby(...).agg(...));
     - the top-level statement sequence, its phases and its error behaviour.
   Numeric data cells are rationals ([Q]); a missing cell (NaN) is [None].
   ============================================================================ *)

From Stdlib Require Import List String Ascii Bool Arith Lia ZArith QArith.
From Stdlib Require Import Reals Qreals Lra Psatz.
From Stdlib Require Import Sorting.Sorted Sorting.Permutation.
Import ListNotations.

Open Scope string_scope.

(* ---------------------------------------------------------------------------
   1. Formula strings and the formula language
   --------------------------------------------------------------------------- *)

Module Formula.

(** A factor of a term: a numeric column used as is, or [C(col)], a column
    treated as categorical. *)
Inductive factor : Type :=
| Num (col : string)
| Cat (col : string).

(** A term is a product of factors ([a:b] in patsy); a single factor is a
    main effect. *)
Definition term := list factor.

Definition factor_eqb (f g : factor) : bool :=
  match f, g with
  | Num a, Num b => String.eqb a b
  | Cat a, Cat b => String.eqb a b
  | _, _ => false
  end.

Fixpoint term_eqb (t u : term) : bool :=
  match t, u with
  | [], [] => true
  | f :: t', g :: u' => factor_eqb f g && term_eqb t' u'
  | _, _ => false
  end.

Definition factor_col (f : factor) : string :=
  match f with Num c => c | Cat c => c end.

(** A parsed formula: the response column and the right-hand side summands;
    a summand [a*b] is a list of two or more factors. *)
Record formula : Type := mkFormula {
  lhs : string;
  rhs : list (list factor)
}.

(* --- lexical helpers on list ascii --- *)

Definition is_space (c : ascii) : bool := Ascii.eqb c " "%char.

Fixpoint drop_spaces (l : list ascii) : list ascii :=
  match l with
  | c :: l' => if is_space c then drop_spaces l' else l
  | [] => []
  end.

Definition trim (l : list ascii) : list ascii :=
  rev (drop_spaces (rev (drop_spaces l))).

(** [split_on c l]: the pieces of [l] between occurrences of [c]. *)
Fixpoint split_on (c : ascii) (l : list ascii) : list (list ascii) :=
  match l with
  | [] => [[]]
  | x :: l' =>
      let rest := split_on c l' in
      if Ascii.eqb x c then [] :: rest
      else match rest with
           | p :: ps => (x :: p) :: ps
           | [] => [[x]]
           end
  end.

(** [C(col)] is a categorical factor, any other name a numeric one. *)
Definition parse_factor (l : list ascii) : factor :=
  let l := trim l in
  match l with
  | "C"%char :: "("%char :: inner =>
      match rev inner with
      | ")"%char :: rinner => Cat (string_of_list_ascii (trim (rev rinner)))
      | _ => Num (string_of_list_ascii l)
      end
  | _ => Num (string_of_list_ascii l)
  end.

Definition parse_summand (l : list ascii) : list factor :=
  map parse_factor (split_on "*"%char l).

(** [parse "y ~ a + b*C(c)"]: [None] unless there is exactly one [~]. *)
Definition parse (s : string) : option formula :=
  match split_on "~"%char (list_ascii_of_string s) with
  | [l; r] =>
      Some {| lhs := string_of_list_ascii (trim l);
              rhs := map parse_summand (split_on "+"%char r) |}
  | _ => None
  end.

(* --- expansion of [a*b] into its terms --- *)

(** The non-empty sub-products of a product [a*b*...]: patsy expands
    [a*b] to [a + b + a:b]. *)
Fixpoint subsets (l : list factor) : list term :=
  match l with
  | [] => [[]]
  | f :: l' => let s := subsets l' in map (cons f) s ++ s
  end.

Definition expand_summand (fs : list factor) : list term :=
  filter (fun t => match t with [] => false | _ => true end) (subsets fs).

Definition term_mem (t : term) (ts : list term) : bool :=
  existsb (term_eqb t) ts.

Fixpoint dedup (ts : list term) : list term :=
  match ts with
  | [] => []
  | t :: ts' => if term_mem t ts' then dedup ts' else t :: dedup ts'
  end.

(** The right-hand-side regressors (terms) of a formula, intercept aside. *)
Definition regressors (f : formula) : list term :=
  dedup (flat_map expand_summand (rhs f)).

(** Every column the formula reads, response included. *)
Definition columns (f : formula) : list string :=
  lhs f :: flat_map (map factor_col) (rhs f).

Definition incl_terms (a b : list term) : bool :=
  forallb (fun t => term_mem t b) a.

Definition strict_incl_terms (a b : list term) : bool :=
  incl_terms a b && negb (incl_terms b a).

Definition regressors_of (s : string) : list term :=
  match parse s with Some f => regressors f | None => [] end.

End Formula.

(* ---------------------------------------------------------------------------
   2. The five regression formulas of code.py, verbatim
   --------------------------------------------------------------------------- *)

Definition model1_formula : string := "log_base ~ male".
Definition model2_formula : string :=
  "log_base ~ male + perfEval + C(age_bin) + C(edu)".
Definition model3_formula : string :=
  "log_base ~ male + perfEval + C(age_bin) + C(edu) + C(dept) + seniority + C(jobTitle)".
Definition dept_formula : string :=
  "log_base ~ male*C(dept) + perfEval + C(age_bin) + C(edu) + seniority + C(jobTitle)".
Definition job_formula : string :=
  "log_base ~ male*C(jobTitle) + perfEval + C(age_bin) + C(edu) + seniority + C(dept)".

(* ---------------------------------------------------------------------------
   3. Data model and the cleaning step (code.py lines 32-58)
   --------------------------------------------------------------------------- *)

Module Data.

(** A row of the input CSV.  A missing cell (NaN after [read_csv]) is
    [None]. *)
Record raw_row : Type := mkRaw {
  jobTitle : option string;
  gender : option string;
  age : option Q;
  perfEval : option Q;
  edu : option string;
  dept : option string;
  seniority : option Q;
  basePay : option Q;
  bonus : option Q
}.

(** A float produced by [np.log]: a finite value, [-inf] or [NaN]. *)
Inductive fval : Type :=
| Fin (x : R)
| NegInf
| NaN.

Definition is_finite (v : fval) : bool :=
  match v with Fin _ => true | _ => false end.

Definition is_nan (v : fval) : bool :=
  match v with NaN => true | _ => false end.

Definition is_neginf (v : fval) : bool :=
  match v with NegInf => true | _ => false end.

(** [np.log] on one cell: [ln x] for [x > 0], [-inf] at [0], [NaN] below
    [0] and on a missing cell; it raises nothing. *)
Definition np_log (v : option Q) : fval :=
  match v with
  | Some x =>
      if negb (Qle_bool x 0) then Fin (ln (Q2R x))
      else if Qeq_bool x 0 then NegInf
      else NaN
  | None => NaN
  end.

(** Element-wise [+] of two series: NaN if either side is NaN. *)
Definition add_cells (a b : option Q) : option Q :=
  match a, b with
  | Some x, Some y => Some (x + y)%Q
  | _, _ => None
  end.

(** Comparisons of a float cell with a constant: false on NaN. *)
Definition cell_lt (v : option Q) (c : Q) : bool :=
  match v with Some x => negb (Qle_bool c x) | None => false end.

Definition cell_ge (v : option Q) (c : Q) : bool :=
  match v with Some x => Qle_bool c x | None => false end.

(** [data.loc[mask, col] = v] on one row. *)
Definition set_where (mask : bool) (v old : Z) : Z := if mask then v else old.

(** Lines 33-38: [age_bin] starts at 0 and five masked assignments follow,
    in the order of the source. *)
Definition age_bin_of (a : option Q) : Z :=
  let b := 0%Z in
  let b := set_where (cell_lt a 25) 1 b in
  let b := set_where (cell_ge a 25 && cell_lt a 35) 2 b in
  let b := set_where (cell_ge a 35 && cell_lt a 45) 3 b in
  let b := set_where (cell_ge a 45 && cell_lt a 55) 4 b in
  let b := set_where (cell_ge a 55) 5 b in
  b.

(** Line 49: [(data['gender'] == 'Male').astype(int)]; NaN == 'Male' is
    False. *)
Definition male_of (g : option string) : Z :=
  match g with
  | Some s => if String.eqb s "Male" then 1%Z else 0%Z
  | None => 0%Z
  end.

(** A row after the cleaning step: the input columns and the derived ones.
    The category casts of lines 55-58 change no value. *)
Record row : Type := mkRow {
  raw : raw_row;
  age_bin : Z;
  totalPay : option Q;
  log_base : fval;
  log_total : fval;
  log_bonus : fval;
  male : Z
}.

(** Lines 33-49 on one row. *)
Definition clean_row (r : raw_row) : row :=
  let tp := add_cells (basePay r) (bonus r) in
  {| raw := r;
     age_bin := age_bin_of (age r);
     totalPay := tp;
     log_base := np_log (basePay r);
     log_total := np_log tp;
     log_bonus := np_log (add_cells (bonus r) (Some 1%Q));
     male := male_of (gender r) |}.

(** Every step of lines 33-58 is column-wise, so the frame is cleaned row
    by row. *)
Definition clean (d : list raw_row) : list row := map clean_row d.

End Data.

(* ---------------------------------------------------------------------------
   4. Grouped aggregation (code.py lines 70-112)
   --------------------------------------------------------------------------- *)

Module Agg.
Import Data.

(** A column read as a grouping key (the string columns). *)
Definition key_col (r : row) (c : string) : option string :=
  if String.eqb c "gender" then gender (raw r)
  else if String.eqb c "dept" then dept (raw r)
  else if String.eqb c "jobTitle" then jobTitle (raw r)
  else if String.eqb c "edu" then edu (raw r)
  else None.

(** A column read as numbers (the columns the script averages). *)
Definition num_col (r : row) (c : string) : option Q :=
  if String.eqb c "basePay" then basePay (raw r)
  else if String.eqb c "bonus" then bonus (raw r)
  else if String.eqb c "totalPay" then totalPay r
  else if String.eqb c "perfEval" then perfEval (raw r)
  else if String.eqb c "age" then age (raw r)
  else if String.eqb c "seniority" then seniority (raw r)
  else None.

(** [notna]: the cell counted by the ['count'] aggregation. *)
Definition present (r : row) (c : string) : bool :=
  match key_col r c with
  | Some _ => true
  | None => match num_col r c with Some _ => true | None => false end
  end.

(** [groupby(keys)]: the rows whose key columns are all non-missing and equal
    to [k] (pandas drops rows with a NaN key). *)
Fixpoint key_matches (r : row) (keys : list string) (k : list string) : bool :=
  match keys, k with
  | [], [] => true
  | c :: keys', v :: k' =>
      match key_col r c with
      | Some s => String.eqb s v && key_matches r keys' k'
      | None => false
      end
  | _, _ => false
  end.

Definition group (keys : list string) (d : list row) (k : list string)
  : list row :=
  filter (fun r => key_matches r keys k) d.

(** The key of a row, when none of its key cells is missing. *)
Fixpoint key_of (r : row) (keys : list string) : option (list string) :=
  match keys with
  | [] => Some []
  | c :: keys' =>
      match key_col r c, key_of r keys' with
      | Some s, Some k => Some (s :: k)
      | _, _ => None
      end
  end.

Fixpoint strings_eqb (a b : list string) : bool :=
  match a, b with
  | [], [] => true
  | x :: a', y :: b' => String.eqb x y && strings_eqb a' b'
  | _, _ => false
  end.

Fixpoint distinct_keys (ks : list (list string)) : list (list string) :=
  match ks with
  | [] => []
  | k :: ks' =>
      if existsb (strings_eqb k) ks' then distinct_keys ks'
      else k :: distinct_keys ks'
  end.

(** The observed keys: the table rows of [groupby(keys, observed=True)], the
    default from pandas 3.0 on.  The row order of the table (pandas sorts the
    keys, and [sort_values] reorders the dept and job tables) is not
    modelled. *)
Definition group_keys (keys : list string) (d : list row) : list (list string) :=
  distinct_keys (flat_map (fun r => match key_of r keys with
                                    | Some k => [k] | None => [] end) d).

(** The table rows of [groupby(keys, observed=False)], the default before
    pandas 3.0 when the key columns are categoricals (lines 55-58 cast all
    four of them): every combination of categories of the key columns.  The
    categories of a column cast by [astype('category')] are its distinct
    non-missing values, i.e. the observed one-column keys. *)
Fixpoint key_product (keys : list string) (d : list row) : list (list string) :=
  match keys with
  | [] => [[]]
  | c :: keys' =>
      flat_map (fun k1 => map (fun k => k1 ++ k) (key_product keys' d))%list
               (group_keys [c] d)
  end.

(** The non-missing values of a numeric column over some rows. *)
Definition values (c : string) (rs : list row) : list Q :=
  flat_map (fun r => match num_col r c with Some x => [x] | None => [] end) rs.

Fixpoint Qsum (l : list Q) : Q :=
  match l with [] => 0%Q | x :: l' => (x + Qsum l')%Q end.

Fixpoint insert_Q (x : Q) (l : list Q) : list Q :=
  match l with
  | [] => [x]
  | y :: l' => if Qle_bool x y then x :: l else y :: insert_Q x l'
  end.

Fixpoint sort_Q (l : list Q) : list Q :=
  match l with [] => [] | x :: l' => insert_Q x (sort_Q l') end.

(** The number of rows of [rs] whose [c] cell is not missing. *)
Definition nonmissing (c : string) (rs : list row) : nat :=
  List.length (filter (fun r => present r c) rs).

Inductive how : Type := Mean | Median | Count.

(** A cell of an aggregated table: a float (NaN as [None]) or a count. *)
Inductive out : Type :=
| OQ (v : option Q)
| ON (n : nat).

(** ['mean'] and ['median'] skip NaN and give NaN on no value; ['count']
    counts the non-missing cells.  Values are exact rationals: the mean is
    the exact quotient of the sum by the number of values, where pandas
    computes a float64 (compensated) sum and divides it, so the model agrees
    with pandas up to floating-point rounding. *)
Definition agg (h : how) (c : string) (rs : list row) : out :=
  let vs := values c rs in
  let n := List.length vs in
  match h with
  | Mean => OQ (match vs with
                | [] => None
                | _ => Some (Qsum vs / inject_Z (Z.of_nat n))%Q
                end)
  | Median => OQ (match vs with
                  | [] => None
                  | _ =>
                      let s := sort_Q vs in
                      if Nat.odd n then Some (nth (n / 2) s 0%Q)
                      else Some ((nth (n / 2 - 1) s 0%Q
                                  + nth (n / 2) s 0%Q) / 2)%Q
                  end)
  | Count => ON (List.length (filter (fun r => present r c) rs))
  end.

(** [data.groupby(keys).agg(name=(col, how), ...)]. *)
Record spec : Type := mkSpec {
  by_keys : list string;
  named : list (string * (string * how))
}.

Definition agg_row (s : spec) (rs : list row) : list (string * out) :=
  map (fun '(name, (c, h)) => (name, agg h c rs)) (named s).

Definition groupby_agg (s : spec) (d : list row)
  : list (list string * list (string * out)) :=
  map (fun k => (k, agg_row s (group (by_keys s) d k))) (group_keys (by_keys s) d).

(** The same table under the pandas 2.x default [observed=False]. *)
Definition groupby_agg_all (s : spec) (d : list row)
  : list (list string * list (string * out)) :=
  map (fun k => (k, agg_row s (group (by_keys s) d k))) (key_product (by_keys s) d).

Definition summary_base : spec :=
  mkSpec ["gender"] [("meanBasePay", ("basePay", Mean));
                     ("medBasePay", ("basePay", Median));
                     ("cnt", ("basePay", Count))].
Definition summary_total : spec :=
  mkSpec ["gender"] [("meanTotalPay", ("totalPay", Mean));
                     ("medTotalPay", ("totalPay", Median));
                     ("cnt", ("totalPay", Count))].
Definition summary_bonus : spec :=
  mkSpec ["gender"] [("meanBonus", ("bonus", Mean));
                     ("medBonus", ("bonus", Median));
                     ("cnt", ("bonus", Count))].
Definition summary_perf : spec :=
  mkSpec ["gender"] [("meanPerf", ("perfEval", Mean));
                     ("cnt", ("perfEval", Count))].
Definition summary_dept : spec :=
  mkSpec ["dept"; "gender"] [("meanTotalPay", ("totalPay", Mean));
                             ("cnt", ("dept", Count))].
Definition summary_job : spec :=
  mkSpec ["jobTitle"; "gender"] [("meanTotalPay", ("totalPay", Mean));
                                 ("cnt", ("jobTitle", Count))].

Definition summaries : list spec :=
  [summary_base; summary_total; summary_bonus; summary_perf;
   summary_dept; summary_job].

End Agg.

(* ---------------------------------------------------------------------------
   5. The script as a sequence of top-level statements
   --------------------------------------------------------------------------- *)

Module Script.

(** One top-level operation of code.py. *)
Inductive action : Type :=
| ImportModule (m : string)                 (* import ... *)
| SetOption (opt : string)                  (* pd.set_option *)
| ReadCsv (url : string)                    (* pd.read_csv *)
| AssignCol (col : string)                  (* data[col] = ... / data.loc *)
| CastCategory (col : string)               (* data[col].astype('category') *)
| Describe (name : string)                  (* data.describe() *)
| GroupAgg (name : string) (s : Agg.spec)   (* data.groupby(...).agg(...) *)
| Fit (estimator name formula : string)     (* smf.ols(formula, data).fit() *)
| Show (what : string)                      (* print(...) *)
| Bind (name : string)                      (* any other assignment *)
| WriteFile (file : string).                (* to_html / to_csv / f.write *)

(** A statement runs an action, or guards one with [try ... except]. *)
Inductive stmt : Type :=
| Plain (a : action)
| TryExcept (body handler : action).

Definition data_url : string :=
  "https://glassdoor.box.com/shared/static/beukjzgrsu35fqe59f7502hruribd5tt.csv".

(** The statements of code.py in source order (line numbers on the right). *)
Definition script_actions : list action :=
  [ ImportModule "pandas";                                  (* 15 *)
    ImportModule "numpy";                                   (* 16 *)
    ImportModule "statsmodels.api";                         (* 17 *)
    ImportModule "statsmodels.formula.api";                 (* 18 *)
    ImportModule "statsmodels.iolib.summary2";              (* 19 *)
    SetOption "display.float_format";                       (* 22 *)
    ReadCsv data_url;                                       (* 25 *)
    AssignCol "age_bin";                                    (* 33 *)
    AssignCol "age_bin";                                    (* 34 *)
    AssignCol "age_bin";                                    (* 35 *)
    AssignCol "age_bin";                                    (* 36 *)
    AssignCol "age_bin";                                    (* 37 *)
    AssignCol "age_bin";                                    (* 38 *)
    AssignCol "totalPay";                                   (* 41 *)
    AssignCol "log_base";                                   (* 44 *)
    AssignCol "log_total";                                  (* 45 *)
    AssignCol "log_bonus";                                  (* 46 *)
    AssignCol "male";                                       (* 49 *)
    Show "data.info()";                                     (* 52 *)
    CastCategory "jobTitle";                                (* 55 *)
    CastCategory "gender";                                  (* 56 *)
    CastCategory "edu";                                     (* 57 *)
    CastCategory "dept";                                    (* 58 *)
    Describe "summary_stats";                               (* 66 *)
    WriteFile "summary.html";                               (* 67 *)
    GroupAgg "summary_base" Agg.summary_base;               (* 70 *)
    Show "summary_base";                                    (* 75 *)
    GroupAgg "summary_total" Agg.summary_total;             (* 78 *)
    Show "summary_total";                                   (* 83 *)
    GroupAgg "summary_bonus" Agg.summary_bonus;             (* 86 *)
    Show "summary_bonus";                                   (* 91 *)
    GroupAgg "summary_perf" Agg.summary_perf;               (* 94 *)
    Show "summary_perf";                                    (* 98 *)
    GroupAgg "summary_dept" Agg.summary_dept;               (* 101 *)
    Show "summary_dept";                                    (* 105 *)
    GroupAgg "summary_job" Agg.summary_job;                 (* 108 *)
    Show "summary_job";                                     (* 112 *)
    Fit "ols" "model1" model1_formula;                      (* 125 *)
    Show "model1.summary()";                                (* 126 *)
    Fit "ols" "model2" model2_formula;                      (* 129 *)
    Show "model2.summary()";                                (* 130 *)
    Fit "ols" "model3" model3_formula;                      (* 133 *)
    Show "model3.summary()";                                (* 134 *)
    Bind "logbase_pay_gap";                                 (* 137 *)
    Bind "logbase_pay_pvalue";                              (* 138 *)
    Show "logbase_pay_gap";                                 (* 139 *)
    Show "logbase_pay_pvalue";                              (* 140 *)
    Bind "models";                                          (* 143 *)
    Bind "model_names";                                     (* 144 *)
    Bind "results_table";                                   (* 147 *)
    Bind "control_info";                                    (* 154 *)
    Bind "html_content";                                    (* 161 *)
    Bind "html_content";                                    (* 162 *)
    WriteFile "results.html";                               (* 165 *)
    Bind "dept_formula";                                    (* 177 *)
    Fit "ols" "dept_results" dept_formula;                  (* 178 *)
    Show "dept_results.summary()";                          (* 179 *)
    Bind "dept_results_df";                                 (* 182 *)
    WriteFile "dept_clean.csv";                             (* 189 *)
    WriteFile "dept.html";                                  (* 192 *)
    Bind "job_formula";                                     (* 204 *)
    Fit "ols" "job_results" job_formula;                    (* 205 *)
    Show "job_results.summary()";                           (* 206 *)
    Bind "job_results_df";                                  (* 209 *)
    WriteFile "job_clean.csv";                              (* 216 *)
    WriteFile "job.html"                                    (* 219 *)
  ].

(** No statement of code.py is inside a [try]. *)
Definition script : list stmt := map Plain script_actions.

(* --- phases of the pipeline --- *)

Definition is_transform (a : action) : bool :=
  match a with AssignCol _ | CastCategory _ => true | _ => false end.
Definition is_describe (a : action) : bool :=
  match a with Describe _ => true | _ => false end.
Definition is_groupagg (a : action) : bool :=
  match a with GroupAgg _ _ => true | _ => false end.
Definition is_fit (a : action) : bool :=
  match a with Fit _ _ _ => true | _ => false end.
Definition is_export (a : action) : bool :=
  match a with WriteFile _ => true | _ => false end.
Definition is_write_of (f : string) (a : action) : bool :=
  match a with WriteFile g => String.eqb f g | _ => false end.
Definition is_fit_of (n : string) (a : action) : bool :=
  match a with Fit _ m _ => String.eqb n m | _ => false end.

(** The three base-pay control models of lines 125-133. *)
Definition is_base_fit (a : action) : bool :=
  is_fit_of "model1" a || is_fit_of "model2" a || is_fit_of "model3" a.
Definition is_dept_write (a : action) : bool :=
  is_write_of "dept_clean.csv" a || is_write_of "dept.html" a.
Definition is_job_write (a : action) : bool :=
  is_write_of "job_clean.csv" a || is_write_of "job.html" a.

(** Every [P]-statement comes strictly before every [Q]-statement. *)
Definition before (P Q : action -> bool) (l : list action) : Prop :=
  forall i j a b, nth_error l i = Some a -> nth_error l j = Some b ->
                  P a = true -> Q b = true -> (i < j)%nat.

Fixpoint before_b (P Q : action -> bool) (l : list action) : bool :=
  match l with
  | [] => true
  | a :: l' => (negb (Q a) || negb (existsb P l)) && before_b P Q l'
  end.

(** The fits of the script: estimator, name and formula. *)
Definition fits (l : list action) : list (string * string * string) :=
  flat_map (fun a => match a with
                     | Fit e n f => [(e, n, f)]
                     | _ => []
                     end) l.

(* --- execution: an error monad over an abstract interpreter state --- *)

Section Exec.

Variable State Err : Type.

(** What one action does to the interpreter state, or the exception it
    raises (pandas, statsmodels, I/O). *)
Variable exec_action : action -> State -> State + Err.

Definition exec_stmt (s : stmt) (st : State) : State + Err :=
  match s with
  | Plain a => exec_action a st
  | TryExcept body handler =>
      match exec_action body st with
      | inl st' => inl st'
      | inr _ => exec_action handler st
      end
  end.

(** Top-level statements run in order; an uncaught exception ends the run. *)
Fixpoint exec_prog (p : list stmt) (st : State) : State + Err :=
  match p with
  | [] => inl st
  | s :: p' =>
      match exec_stmt s st with
      | inl st' => exec_prog p' st'
      | inr e => inr e
      end
  end.

End Exec.

Arguments exec_stmt {State Err} exec_action s st.
Arguments exec_prog {State Err} exec_action p st.

End Script.

(* ---------------------------------------------------------------------------
   6. Per-cell finiteness of the columns a regression reads
   --------------------------------------------------------------------------- *)

Module Cells.
Import Data.

(** How [smf.ols] sees the cells of a row.  [from_formula] builds the design
    with patsy under its default [NA_action='drop']: a row is dropped from
    the fit when a cell of a column the formula reads is NaN or missing
    (NaN floats, and None/NaN in the categorical columns).  Infinite values
    are not missing for patsy and stay in the fit. *)

(** The cell is NaN or missing.  [male] and [age_bin] are always set
    (lines 33-38, 49). *)
Definition cell_na (r : row) (c : string) : bool :=
  if String.eqb c "log_base" then is_nan (log_base r)
  else if String.eqb c "log_total" then is_nan (log_total r)
  else if String.eqb c "log_bonus" then is_nan (log_bonus r)
  else if String.eqb c "male" then false
  else if String.eqb c "age_bin" then false
  else negb (Agg.present r c).

(** The cell is infinite: only [np.log] can produce one, as [-inf]. *)
Definition cell_inf (r : row) (c : string) : bool :=
  if String.eqb c "log_base" then is_neginf (log_base r)
  else if String.eqb c "log_total" then is_neginf (log_total r)
  else if String.eqb c "log_bonus" then is_neginf (log_bonus r)
  else false.

(** The fit with formula [f] keeps row [r]: none of the cells it reads is
    NaN or missing. *)
Definition fit_keeps_row (r : row) (f : string) : bool :=
  match Formula.parse f with
  | Some fm => forallb (fun c => negb (cell_na r c)) (Formula.columns fm)
  | None => false
  end.

(** The fit with formula [f] receives, at row [r], a non-finite value: the
    row is kept and one of the cells it reads is infinite. *)
Definition fit_sees_nonfinite (r : row) (f : string) : bool :=
  match Formula.parse f with
  | Some fm => fit_keeps_row r f && existsb (cell_inf r) (Formula.columns fm)
  | None => false
  end.

End Cells.

(* ---------------------------------------------------------------------------
   8. Report layout: sorted tables (lines 104, 111) and the control rows of
      results.html (lines 143-162)
   --------------------------------------------------------------------------- *)

Module Report.

(** A row of an aggregated table after [reset_index()]: its key columns and
    its value cells. *)
Definition table_row : Type := (list string * list (string * Agg.out))%type.

(** The order of [sort_values(by=[k1, k2], ascending=[False, True])]: [k1]
    descending, then [k2] ascending (string order, as the sorted categories
    of the casts of lines 55-58). *)
Definition desc_asc_le (a b : list string) : bool :=
  match a, b with
  | [x1; y1], [x2; y2] =>
      match String.compare x1 x2 with
      | Gt => true
      | Lt => false
      | Eq => match String.compare y1 y2 with Gt => false | _ => true end
      end
  | _, _ => true
  end.

Fixpoint insert_row (x : table_row) (l : list table_row) : list table_row :=
  match l with
  | [] => [x]
  | y :: l' => if desc_asc_le (fst x) (fst y) then x :: l else y :: insert_row x l'
  end.

Fixpoint sort_rows (l : list table_row) : list table_row :=
  match l with
  | [] => []
  | x :: l' => insert_row x (sort_rows l')
  end.

(** Lines 101-104 and 108-111. *)
Definition summary_dept_table (d : list Data.row) : list table_row :=
  sort_rows (Agg.groupby_agg Agg.summary_dept d).
Definition summary_job_table (d : list Data.row) : list table_row :=
  sort_rows (Agg.groupby_agg Agg.summary_job d).

(** Lines 143-144: the models of the results table, in column order. *)
Definition models : list string := [model1_formula; model2_formula; model3_formula].
Definition model_names : list string := ["Model 1"; "Model 2"; "Model 3"].

(** Lines 154-159, verbatim (the triple-quoted string starts and ends with a
    newline). *)
Definition control_info : string := "
<tr><td>Controls:</td><td></td><td></td><td></td></tr>
<tr><td>Education</td><td>No</td><td>Yes</td><td>Yes</td></tr>
<tr><td>Department</td><td>No</td><td>No</td><td>Yes</td></tr>
<tr><td>Job Title</td><td>No</td><td>No</td><td>Yes</td></tr>
".

(** The texts of the [<td>] cells of one line of HTML. *)
Definition row_cells (l : list ascii) : list string :=
  flat_map (fun p => match p with
                     | "t"%char :: "d"%char :: ">"%char :: txt => [string_of_list_ascii txt]
                     | _ => []
                     end) (Formula.split_on "<"%char l).

(** The cells of each non-blank line of an HTML fragment. *)
Definition html_rows (s : string) : list (list string) :=
  map row_cells
      (filter (fun l => match l with [] => false | _ => true end)
              (Formula.split_on "010"%char (list_ascii_of_string s))).

(** Whether a model (by its formula) controls for the categorical column
    [col]. *)
Definition yes_no (col : string) (f : string) : string :=
  if Formula.term_mem [Formula.Cat col] (Formula.regressors_of f) then "Yes" else "No".

End Report.

(** The files the script writes, in order. *)
Definition written_files (l : list Script.action) : list string :=
  flat_map (fun a => match a with Script.WriteFile f => [f] | _ => [] end) l.

(* ---------------------------------------------------------------------------
   7. Sample rows for the concrete cases
   --------------------------------------------------------------------------- *)

Module Sample.

(** An Engineering/Sales employee of age 30 with the given gender, base pay
    and bonus. *)
Definition employee (g : option string) (pay bon : option Q) : Data.raw_row :=
  Data.mkRaw (Some "Software Engineer") g (Some 30%Q) (Some 3%Q)
             (Some "College") (Some "Engineering") (Some 2%Q) pay bon.

(** An interpreter in which fitting model1 raises. *)
(** A male sales analyst. *)
Definition salesman : Data.raw_row :=
  Data.mkRaw (Some "Analyst") (Some "Male") (Some 40%Q) (Some 4%Q)
    (Some "Masters") (Some "Sales") (Some 3%Q) (Some 90%Q) (Some 2%Q).

Definition failing_fit (a : Script.action) (n : nat) : nat + string :=
  if Script.is_fit_of "model1" a then inr "LinAlgError" else inl (S n).

End Sample.

(* ===========================================================================
   Theorems
   =========================================================================== *)

Module FormulaFacts.
Import Formula.

Lemma regressors_model1 : regressors_of model1_formula = [[Num "male"]].
Proof. vm_compute. reflexivity. Qed.

Lemma regressors_model2 :
  regressors_of model2_formula =
  [[Num "male"]; [Num "perfEval"]; [Cat "age_bin"]; [Cat "edu"]].
Proof. vm_compute. reflexivity. Qed.

Lemma regressors_model3 :
  regressors_of model3_formula =
  [[Num "male"]; [Num "perfEval"]; [Cat "age_bin"]; [Cat "edu"];
   [Cat "dept"]; [Num "seniority"]; [Cat "jobTitle"]].
Proof. vm_compute. reflexivity. Qed.

Lemma regressors_dept :
  regressors_of dept_formula =
  [[Num "male"; Cat "dept"]; [Num "male"]; [Cat "dept"]; [Num "perfEval"];
   [Cat "age_bin"]; [Cat "edu"]; [Num "seniority"]; [Cat "jobTitle"]].
Proof. vm_compute. reflexivity. Qed.

Lemma regressors_job :
  regressors_of job_formula =
  [[Num "male"; Cat "jobTitle"]; [Num "male"]; [Cat "jobTitle"];
   [Num "perfEval"]; [Cat "age_bin"]; [Cat "edu"]; [Num "seniority"];
   [Cat "dept"]].
Proof. vm_compute. reflexivity. Qed.

End FormulaFacts.

Ltac solve_incl :=
  let t := fresh "t" in
  let H := fresh "H" in
  intros t H; simpl in H |- *;
  repeat (destruct H as [H | H]; [subst t; auto 10 |]); try contradiction.

(** C1: the regressors of model1 ([male]) are strictly contained in those of
    model2 ([male], [perfEval], [C(age_bin)], [C(edu)]), which are strictly
    contained in those of model3 (adding [C(dept)], [seniority],
    [C(jobTitle)]); each earlier model's regressors appear in every later
    model. *)
Theorem C1_controls_strictly_increase :
  let r1 := Formula.regressors_of model1_formula in
  let r2 := Formula.regressors_of model2_formula in
  let r3 := Formula.regressors_of model3_formula in
  r1 = [[Formula.Num "male"]] /\
  r2 = [[Formula.Num "male"]; [Formula.Num "perfEval"];
        [Formula.Cat "age_bin"]; [Formula.Cat "edu"]] /\
  r3 = [[Formula.Num "male"]; [Formula.Num "perfEval"];
        [Formula.Cat "age_bin"]; [Formula.Cat "edu"]; [Formula.Cat "dept"];
        [Formula.Num "seniority"]; [Formula.Cat "jobTitle"]] /\
  incl r1 r2 /\ ~ incl r2 r1 /\
  incl r2 r3 /\ ~ incl r3 r2 /\
  incl r1 r3.
Proof.
  cbv zeta.
  rewrite FormulaFacts.regressors_model1, FormulaFacts.regressors_model2,
          FormulaFacts.regressors_model3.
  split; [reflexivity |]. split; [reflexivity |]. split; [reflexivity |].
  split; [solve_incl |].
  split.
  { intro H. specialize (H [Formula.Num "perfEval"]).
    destruct H as [H | H]; [simpl; auto | discriminate | exact H]. }
  split; [solve_incl |].
  split.
  { intro H. specialize (H [Formula.Cat "dept"]).
    destruct H as [H | [H | [H | [H | H]]]];
      [simpl; auto 10 | discriminate .. | exact H]. }
  solve_incl.
Qed.

Lemma fits_of_script :
  Script.fits Script.script_actions =
  [("ols", "model1", model1_formula); ("ols", "model2", model2_formula);
   ("ols", "model3", model3_formula); ("ols", "dept_results", dept_formula);
   ("ols", "job_results", job_formula)].
Proof. reflexivity. Qed.

Ltac parsed_formula :=
  eexists; split; [vm_compute; reflexivity |].

(** Each formula passed to [smf.ols] parses, has response [log_base] and
    reads none of [log_total], [log_bonus], [gender]. *)
Lemma fits_formulas e n f :
  In (e, n, f) (Script.fits Script.script_actions) ->
  e = "ols" /\
  exists fm, Formula.parse f = Some fm /\ Formula.lhs fm = "log_base" /\
    ~ In "log_total" (Formula.columns fm) /\
    ~ In "log_bonus" (Formula.columns fm) /\
    ~ In "gender" (Formula.columns fm).
Proof.
  intro H. rewrite fits_of_script in H.
  simpl in H.
  repeat (destruct H as [H | H];
          [injection H as <- <- <-; split; [reflexivity |]; parsed_formula;
           split; [reflexivity |];
           repeat split; simpl; intro Hc;
           repeat (destruct Hc as [Hc | Hc]; [discriminate |]);
           exact Hc |]).
  contradiction.
Qed.

(** C2: the program fits exactly five models (model1-3 and the department
    and job-title interaction models), each with [smf.ols]; the response of
    every formula is [log_base], the column computed as [np.log(basePay)];
    no formula reads [log_total] or [log_bonus]. *)
Theorem C2_every_fit_is_ols_on_log_base :
  map (fun '(e, n, _) => (e, n)) (Script.fits Script.script_actions) =
    [("ols", "model1"); ("ols", "model2"); ("ols", "model3");
     ("ols", "dept_results"); ("ols", "job_results")] /\
  (forall e n f, In (e, n, f) (Script.fits Script.script_actions) ->
     e = "ols" /\
     exists fm, Formula.parse f = Some fm /\ Formula.lhs fm = "log_base" /\
       ~ In "log_total" (Formula.columns fm) /\
       ~ In "log_bonus" (Formula.columns fm)) /\
  (forall r, Data.log_base (Data.clean_row r) = Data.np_log (Data.basePay r)).
Proof.
  split; [rewrite fits_of_script; reflexivity |].
  split; [| reflexivity].
  intros e n f H.
  destruct (fits_formulas e n f H) as [He [fm [Hp [Hl [H1 [H2 _]]]]]].
  split; [exact He |]. exists fm. auto.
Qed.

(** C3: the last two fits are the interaction models: [dept_formula] has the
    summand [male*C(dept)] and [job_formula] the summand [male*C(jobTitle)];
    their regressors include that interaction term, and every regressor of
    model3 ([male], [perfEval], [C(age_bin)], [C(edu)], [C(dept)],
    [seniority], [C(jobTitle)]) is a regressor of each of them. *)
Theorem C3_interaction_models_contain_model3 :
  (exists fm, Formula.parse dept_formula = Some fm /\
     In [Formula.Num "male"; Formula.Cat "dept"] (Formula.rhs fm)) /\
  (exists fm, Formula.parse job_formula = Some fm /\
     In [Formula.Num "male"; Formula.Cat "jobTitle"] (Formula.rhs fm)) /\
  In [Formula.Num "male"; Formula.Cat "dept"] (Formula.regressors_of dept_formula) /\
  In [Formula.Num "male"; Formula.Cat "jobTitle"] (Formula.regressors_of job_formula) /\
  incl (Formula.regressors_of model3_formula) (Formula.regressors_of dept_formula) /\
  incl (Formula.regressors_of model3_formula) (Formula.regressors_of job_formula).
Proof.
  split; [parsed_formula; simpl; auto |].
  split; [parsed_formula; simpl; auto |].
  rewrite FormulaFacts.regressors_model3, FormulaFacts.regressors_dept,
          FormulaFacts.regressors_job.
  split; [simpl; auto |]. split; [simpl; auto |].
  split; solve_incl.
Qed.

Module AggFacts.
Import Data Agg.

Lemma strings_eqb_eq (a b : list string) : strings_eqb a b = true <-> a = b.
Proof.
  revert b; induction a as [| x a IH]; intros [| y b]; simpl;
    try (split; congruence).
  rewrite andb_true_iff, String.eqb_eq, IH. split.
  - intros [-> ->]; reflexivity.
  - intros H; injection H as -> ->; auto.
Qed.

Lemma distinct_keys_In (ks : list (list string)) k :
  In k (distinct_keys ks) <-> In k ks.
Proof.
  induction ks as [| x ks IH]; simpl; [tauto |].
  destruct (existsb (strings_eqb x) ks) eqn:E; simpl; rewrite IH.
  - apply existsb_exists in E as [y [Hy Hxy]].
    apply strings_eqb_eq in Hxy; subst y.
    split; [tauto | intros [<- | H]; auto].
  - tauto.
Qed.

Lemma distinct_keys_NoDup (ks : list (list string)) : NoDup (distinct_keys ks).
Proof.
  induction ks as [| x ks IH]; simpl; [constructor |].
  destruct (existsb (strings_eqb x) ks) eqn:E; [exact IH |].
  constructor; [| exact IH].
  rewrite distinct_keys_In. intro Hin.
  assert (existsb (strings_eqb x) ks = true) as E'
    by (apply existsb_exists; exists x; split; [exact Hin | apply strings_eqb_eq; reflexivity]).
  congruence.
Qed.

Lemma group_keys_In keys d k :
  In k (group_keys keys d) <-> exists r, In r d /\ key_of r keys = Some k.
Proof.
  unfold group_keys. rewrite distinct_keys_In, in_flat_map.
  split.
  - intros [r [Hr Hk]]. exists r. split; [exact Hr |].
    destruct (key_of r keys); simpl in Hk; [| contradiction].
    destruct Hk as [-> | []]; reflexivity.
  - intros [r [Hr Hk]]. exists r. rewrite Hk. simpl; auto.
Qed.

Lemma key_matches_key_of r keys k :
  key_matches r keys k = true <-> key_of r keys = Some k.
Proof.
  revert k; induction keys as [| c keys IH]; intros [| v k]; simpl;
    try (split; congruence).
  - destruct (key_col r c); [| split; congruence].
    destruct (key_of r keys); split; congruence.
  - destruct (key_col r c) as [s |]; [| split; congruence].
    rewrite andb_true_iff, String.eqb_eq, IH.
    destruct (key_of r keys) as [k' |].
    + split; [intros [-> H]; congruence | intros H; injection H as -> ->; auto].
    + split; [intros [_ H]; discriminate | discriminate].
Qed.

Lemma group_In keys d k r :
  In r (group keys d k) <-> In r d /\ key_of r keys = Some k.
Proof.
  unfold group. rewrite filter_In, key_matches_key_of. tauto.
Qed.

Lemma key_present r keys k c :
  In c keys -> key_of r keys = Some k -> present r c = true.
Proof.
  revert k; induction keys as [| c' keys IH]; intros k Hc Hk; [destruct Hc |].
  simpl in Hk. destruct (key_col r c') as [s |] eqn:Ec; [| discriminate].
  destruct (key_of r keys) as [k' |] eqn:Ek; [| discriminate].
  destruct Hc as [<- | Hc].
  - unfold present. rewrite Ec. reflexivity.
  - exact (IH k' Hc eq_refl).
Qed.

Lemma filter_all_true {A} (f : A -> bool) (l : list A) :
  (forall x, In x l -> f x = true) -> filter f l = l.
Proof.
  induction l as [| x l IH]; intro H; simpl; [reflexivity |].
  rewrite (H x (or_introl eq_refl)), IH; [reflexivity |].
  intros y Hy; apply H; right; exact Hy.
Qed.

(** For a column that is never a grouping key, the non-missing cells are
    exactly the values [mean] averages. *)
Lemma values_length c rs :
  (forall r, key_col r c = None) ->
  List.length (values c rs) = nonmissing c rs.
Proof.
  intro Hk. unfold nonmissing, values.
  induction rs as [| r rs IH]; simpl; [reflexivity |].
  unfold present at 1. rewrite Hk.
  destruct (num_col r c); simpl; rewrite IH; reflexivity.
Qed.

Lemma mean_cell c rs :
  (forall r, key_col r c = None) ->
  agg Mean c rs =
  OQ (if Nat.eqb (nonmissing c rs) 0 then None
      else Some (Qsum (values c rs) / inject_Z (Z.of_nat (nonmissing c rs)))%Q).
Proof.
  intro Hk. simpl. rewrite <- (values_length c rs Hk).
  destruct (values c rs); reflexivity.
Qed.

Lemma count_cell_key keys d k c :
  In c keys ->
  agg Count c (group keys d k) = ON (List.length (group keys d k)).
Proof.
  intro Hc. simpl. f_equal. f_equal.
  apply filter_all_true. intros r Hr.
  apply group_In in Hr as [_ Hk]. exact (key_present r keys k c Hc Hk).
Qed.

Lemma group_keys_single c d k :
  In k (group_keys [c] d) <-> exists v, k = [v] /\ exists r, In r d /\ key_col r c = Some v.
Proof.
  rewrite group_keys_In. simpl. split.
  - intros [r [Hr Hk]]. destruct (key_col r c) as [v |] eqn:E; [| discriminate].
    injection Hk as <-. exists v. split; [reflexivity |]. exists r. auto.
  - intros [v [-> [r [Hr Hv]]]]. exists r. rewrite Hv. auto.
Qed.

(** The pandas 2.x keys are the combinations of observed values. *)
Lemma key_product_In keys d k :
  In k (key_product keys d) <->
  Forall2 (fun c v => exists r, In r d /\ key_col r c = Some v) keys k.
Proof.
  revert k; induction keys as [| c keys IH]; intro k; simpl.
  - split.
    + intros [<- | []]. constructor.
    + intro H. inversion H. left. reflexivity.
  - rewrite in_flat_map. split.
    + intros [k1 [Hk1 Hk]]. apply group_keys_single in Hk1 as [v [-> Hv]].
      apply in_map_iff in Hk as [k2 [<- Hk2]]. simpl.
      constructor; [exact Hv | apply IH; exact Hk2].
    + intro H. inversion H as [| c' v keys' k2 Hv Hk2]; subst.
      exists [v]. split; [apply group_keys_single; exists v; auto |].
      apply in_map_iff. exists k2. split; [reflexivity | apply IH; exact Hk2].
Qed.

Lemma key_of_Forall2 r keys k :
  key_of r keys = Some k -> Forall2 (fun c v => key_col r c = Some v) keys k.
Proof.
  revert k; induction keys as [| c keys IH]; intros k Hk; simpl in Hk.
  - injection Hk as <-. constructor.
  - destruct (key_col r c) as [v |] eqn:E; [| discriminate].
    destruct (key_of r keys) as [k' |]; [| discriminate].
    injection Hk as <-. constructor; [exact E | apply IH; reflexivity].
Qed.

(** Every observed key is also a pandas 2.x key. *)
Lemma group_keys_incl_product keys d :
  incl (group_keys keys d) (key_product keys d).
Proof.
  intros k Hk. apply group_keys_In in Hk as [r [Hr Hk]].
  apply key_product_In. apply key_of_Forall2 in Hk.
  induction Hk; constructor; [exists r; auto | exact IHHk].
Qed.

(** On one key column the two key sets agree. *)
Lemma key_product_single c d : key_product [c] d = group_keys [c] d.
Proof.
  simpl. induction (group_keys [c] d) as [| k l IH]; simpl; [reflexivity |].
  rewrite app_nil_r, IH. reflexivity.
Qed.

(** A key no row carries has an empty group. *)
Lemma group_unobserved keys d k :
  ~ (exists r, In r d /\ key_of r keys = Some k) -> group keys d k = [].
Proof.
  intro H. destruct (group keys d k) as [| r rs] eqn:E; [reflexivity |].
  exfalso. apply H. exists r. apply group_In. rewrite E. left. reflexivity.
Qed.

End AggFacts.

Ltac named_cases H :=
  simpl in H;
  repeat (destruct H as [H | H]; [inversion H; subst; clear H |]);
  try contradiction.

(** Cells of a table row whose group is empty: NaN means and medians,
    zero counts. *)
Definition empty_cells (s : Agg.spec) : list (string * Agg.out) :=
  map (fun '(n, (_, h)) => (n, match h with
                                | Agg.Count => Agg.ON 0
                                | _ => Agg.OQ None
                                end)) (Agg.named s).

(** C4 (amended): each of the six tables has one row per observed key value
    (a gender, or a (department, gender) or (job title, gender) pair with no
    missing key cell), with no repeated key; this is the table of pandas 3,
    whose groupby defaults to [observed=True].  Under the pandas 2.x default
    [observed=False] on the category-cast key columns, a table has one row
    per combination of observed values of its key columns: for the gender
    tables these are the same rows, and the department and job tables add
    the unobserved (value, gender) pairs, whose group is empty, with NaN
    mean and count 0.  In either table, the group of a key is exactly the
    rows carrying that key; a mean cell is the sum of the non-missing values
    of its column over the group divided by their number (NaN when there is
    none); a count cell is the number of rows of the group whose counted
    column is not missing, which for the department and job tables (where
    the counted column is a grouping key) is the size of the group. *)
Theorem C4_grouped_stats_over_nonmissing (s : Agg.spec) (d : list Data.row)
    (k : list string) (Hs : In s Agg.summaries) :
  let keys := Agg.by_keys s in
  let rs := Agg.group keys d k in
  (In k (Agg.group_keys keys d) <->
     exists r, In r d /\ Agg.key_of r keys = Some k) /\
  NoDup (Agg.group_keys keys d) /\
  (In k (Agg.key_product keys d) <->
     Forall2 (fun c v => exists r, In r d /\ Agg.key_col r c = Some v) keys k) /\
  incl (Agg.group_keys keys d) (Agg.key_product keys d) /\
  (keys = ["gender"] -> Agg.key_product keys d = Agg.group_keys keys d) /\
  (~ (exists r, In r d /\ Agg.key_of r keys = Some k) ->
     rs = [] /\ Agg.agg_row s rs = empty_cells s) /\
  (forall r, In r rs <-> In r d /\ Agg.key_of r keys = Some k) /\
  (forall n c, In (n, (c, Agg.Mean)) (Agg.named s) ->
     Agg.agg Agg.Mean c rs =
     Agg.OQ (if Nat.eqb (Agg.nonmissing c rs) 0 then None
             else Some (Agg.Qsum (Agg.values c rs)
                        / inject_Z (Z.of_nat (Agg.nonmissing c rs)))%Q)) /\
  (forall n c, In (n, (c, Agg.Count)) (Agg.named s) ->
     Agg.agg Agg.Count c rs = Agg.ON (Agg.nonmissing c rs)) /\
  (forall n c, In (n, (c, Agg.Count)) (Agg.named s) -> In c keys ->
     Agg.agg Agg.Count c rs = Agg.ON (List.length rs)).
Proof.
  cbv zeta.
  split; [apply AggFacts.group_keys_In |].
  split; [apply AggFacts.distinct_keys_NoDup |].
  split; [apply AggFacts.key_product_In |].
  split; [apply AggFacts.group_keys_incl_product |].
  split; [intros -> ; apply AggFacts.key_product_single |].
  split.
  { intro Hno. pose proof (AggFacts.group_unobserved _ d k Hno) as He.
    split; [exact He |]. rewrite He. unfold Agg.agg_row, empty_cells.
    apply map_ext. intros [n [c [| |]]]; reflexivity. }
  split; [intro r; apply AggFacts.group_In |].
  split.
  { intros n c Hin.
    apply AggFacts.mean_cell.
    unfold Agg.summaries in Hs.
    repeat (destruct Hs as [Hs | Hs]; [subst s; named_cases Hin; intro; reflexivity |]).
    contradiction. }
  split; [intros; reflexivity |].
  intros n c _ Hc. apply AggFacts.count_cell_key; exact Hc.
Qed.

(** Witness of C4 on a three-row frame: the department table counts both
    female engineers, and the pair (Sales, Female), a pandas 2.x key that no
    row carries, has an empty group with NaN mean and count 0. *)
Lemma C4_grouped_stats_over_nonmissing_witness :
  let d := Data.clean [Sample.employee (Some "Female") (Some 100%Q) (Some 5%Q);
                       Sample.salesman;
                       Sample.employee (Some "Female") None (Some 5%Q)] in
  Agg.agg Agg.Count "dept" (Agg.group (Agg.by_keys Agg.summary_dept) d
                              ["Engineering"; "Female"]) = Agg.ON 2 /\
  In ["Sales"; "Female"] (Agg.key_product (Agg.by_keys Agg.summary_dept) d) /\
  Agg.agg_row Agg.summary_dept
    (Agg.group (Agg.by_keys Agg.summary_dept) d ["Sales"; "Female"])
  = empty_cells Agg.summary_dept.
Proof.
  cbv zeta.
  assert (In Agg.summary_dept Agg.summaries) as Hs by (simpl; tauto).
  split; [| split; [vm_compute; tauto |]].
  - destruct (C4_grouped_stats_over_nonmissing Agg.summary_dept
                (Data.clean [Sample.employee (Some "Female") (Some 100%Q) (Some 5%Q);
                             Sample.salesman;
                             Sample.employee (Some "Female") None (Some 5%Q)])
                ["Engineering"; "Female"] Hs)
      as [_ [_ [_ [_ [_ [_ [_ [_ [_ H]]]]]]]]].
    rewrite (H "cnt" "dept"); [vm_compute; reflexivity | simpl; tauto | simpl; tauto].
  - destruct (C4_grouped_stats_over_nonmissing Agg.summary_dept
                (Data.clean [Sample.employee (Some "Female") (Some 100%Q) (Some 5%Q);
                             Sample.salesman;
                             Sample.employee (Some "Female") None (Some 5%Q)])
                ["Sales"; "Female"] Hs)
      as [_ [_ [_ [_ [_ [H _]]]]]].
    apply H. intros [r [Hr Hk]]. simpl in Hr.
    destruct Hr as [<- | [<- | [<- | []]]]; vm_compute in Hk; inversion Hk.
Defined.

(** C4 (counterexample): a count is not the number of rows of the group.
    Two female rows, one with a missing base pay: the base-pay table's row
    for "Female" has [cnt = 1] while the group has two rows. *)
Lemma C4_count_excludes_missing_rows :
  let d := Data.clean [Sample.employee (Some "Female") (Some 100%Q) (Some 5%Q);
                       Sample.employee (Some "Female") None (Some 5%Q)] in
  (exists cells, In (["Female"], cells) (Agg.groupby_agg Agg.summary_base d) /\
                 In ("cnt", Agg.ON 1) cells) /\
  List.length (Agg.group ["gender"] d ["Female"]) = 2%nat.
Proof.
  cbv zeta. split; [| reflexivity].
  eexists. split; [vm_compute; left; reflexivity |].
  simpl; auto.
Qed.

Module ScriptFacts.
Import Script.

Lemma before_b_sound (P Q : action -> bool) (l : list action) :
  before_b P Q l = true -> before P Q l.
Proof.
  induction l as [| x l IH]; intro H; intros i j a b Ha Hb HP HQ.
  - destruct i; discriminate.
  - simpl in H. apply andb_true_iff in H as [Hx Hl].
    destruct j as [| j].
    + simpl in Hb. injection Hb as <-.
      rewrite HQ in Hx. simpl in Hx.
      apply negb_true_iff in Hx.
      assert (existsb P (x :: l) = true) as E.
      { apply existsb_exists. exists a. split; [| exact HP].
        eapply nth_error_In; exact Ha. }
      simpl in E, Hx. congruence.
    + destruct i as [| i]; [lia |].
      simpl in Ha, Hb.
      specialize (IH Hl i j a b Ha Hb HP HQ). lia.
Qed.

Lemma exec_prog_app {State Err} (ex : action -> State -> State + Err) p q st :
  exec_prog ex (p ++ q) st =
  match exec_prog ex p st with
  | inl st' => exec_prog ex q st'
  | inr e => inr e
  end.
Proof.
  revert st; induction p as [| s p IH]; intro st; simpl; [reflexivity |].
  destruct (exec_stmt ex s st); [apply IH | reflexivity].
Qed.

Lemma script_all_plain : forall s, In s script -> exists a, s = Plain a.
Proof.
  intros s Hs. unfold script in Hs. apply in_map_iff in Hs as [a [<- _]].
  exists a; reflexivity.
Qed.

End ScriptFacts.

(** C5 (counterexample): not every regression comes before every export:
    [summary.html] is written (line 67, statement 24) before model1 is fitted
    (line 125, statement 37). *)
Lemma C5_summary_html_written_before_fits :
  nth_error Script.script_actions 24 = Some (Script.WriteFile "summary.html") /\
  nth_error Script.script_actions 37 = Some (Script.Fit "ols" "model1" model1_formula) /\
  ~ Script.before Script.is_fit Script.is_export Script.script_actions.
Proof.
  split; [reflexivity |]. split; [reflexivity |].
  intro H.
  assert (37 < 24)%nat as Hlt.
  { apply (H 37%nat 24%nat (Script.Fit "ols" "model1" model1_formula)
             (Script.WriteFile "summary.html")); reflexivity. }
  lia.
Qed.

Ltac by_order := apply ScriptFacts.before_b_sound; vm_compute; reflexivity.

(** C5 (amended): the transformations (the age bins, [totalPay], the logs,
    [male], the category casts) all come before [describe] and before every
    grouped aggregation, and every grouped aggregation comes before every
    regression; the exports are interleaved with the computations they
    write: [summary.html] right after [describe] and before the grouped
    aggregations, [results.html] after model1-3 and before the department
    interaction fit, [dept_clean.csv]/[dept.html] after that fit and before
    the job-title interaction fit, [job_clean.csv]/[job.html] after it. *)
Theorem C5_pipeline_order :
  Script.before Script.is_transform Script.is_describe Script.script_actions /\
  Script.before Script.is_transform Script.is_groupagg Script.script_actions /\
  Script.before Script.is_groupagg Script.is_fit Script.script_actions /\
  Script.before Script.is_describe (Script.is_write_of "summary.html")
    Script.script_actions /\
  Script.before (Script.is_write_of "summary.html") Script.is_groupagg
    Script.script_actions /\
  Script.before Script.is_base_fit (Script.is_write_of "results.html")
    Script.script_actions /\
  Script.before (Script.is_write_of "results.html")
    (Script.is_fit_of "dept_results") Script.script_actions /\
  Script.before (Script.is_fit_of "dept_results") Script.is_dept_write
    Script.script_actions /\
  Script.before Script.is_dept_write (Script.is_fit_of "job_results")
    Script.script_actions /\
  Script.before (Script.is_fit_of "job_results") Script.is_job_write
    Script.script_actions.
Proof.
  repeat split; by_order.
Qed.

(** C6: no statement of the script is guarded by [try]; whatever the
    libraries do, when the statements before some statement have run and
    that statement raises [e], the whole run ends with exactly [e], whatever
    follows it. *)
Theorem C6_uncaught_error_aborts {State Err : Type}
    (exec_action : Script.action -> State -> State + Err)
    (st st' : State) (pre rest : list Script.stmt) (a : Script.action) (e : Err)
    (Hsplit : Script.script = (pre ++ Script.Plain a :: rest)%list)
    (Hpre : Script.exec_prog exec_action pre st = inl st')
    (Ha : exec_action a st' = inr e) :
  (forall s, In s Script.script -> exists b, s = Script.Plain b) /\
  Script.exec_prog exec_action Script.script st = inr e.
Proof.
  split; [exact ScriptFacts.script_all_plain |].
  rewrite Hsplit, ScriptFacts.exec_prog_app, Hpre. simpl. rewrite Ha.
  reflexivity.
Qed.

(** Witness of C6: statement 37 (model1's fit) raises; the run stops there. *)
Lemma C6_uncaught_error_aborts_witness :
  Script.script = (firstn 37 Script.script
                   ++ Script.Plain (Script.Fit "ols" "model1" model1_formula)
                   :: skipn 38 Script.script)%list /\
  Script.exec_prog Sample.failing_fit (firstn 37 Script.script) 0%nat = inl 37%nat /\
  Script.exec_prog Sample.failing_fit Script.script 0%nat = inr "LinAlgError".
Proof.
  split; [vm_compute; reflexivity |].
  split; [vm_compute; reflexivity |].
  apply (C6_uncaught_error_aborts Sample.failing_fit 0%nat 37%nat
           (firstn 37 Script.script) (skipn 38 Script.script)
           (Script.Fit "ols" "model1" model1_formula) "LinAlgError");
    vm_compute; reflexivity.
Defined.

(** C7: every row of the cleaned frame has [totalPay = basePay + bonus]
    (NaN when either is missing) and [log_total = np.log(basePay + bonus)]. *)
Theorem C7_totalPay_is_sum (d : list Data.raw_row) (r : Data.row)
    (Hr : In r (Data.clean d)) :
  Data.totalPay r = Data.add_cells (Data.basePay (Data.raw r)) (Data.bonus (Data.raw r)) /\
  Data.log_total r =
    Data.np_log (Data.add_cells (Data.basePay (Data.raw r)) (Data.bonus (Data.raw r))) /\
  (forall p b, Data.basePay (Data.raw r) = Some p -> Data.bonus (Data.raw r) = Some b ->
     Data.totalPay r = Some (p + b)%Q /\ Data.log_total r = Data.np_log (Some (p + b)%Q)).
Proof.
  unfold Data.clean in Hr. apply in_map_iff in Hr as [x [<- _]].
  split; [reflexivity |]. split; [reflexivity |].
  intros p b Hp Hb. simpl in Hp, Hb |- *. rewrite Hp, Hb. split; reflexivity.
Qed.

(** Witness of C7 on a one-row frame (base pay 100, bonus 5). *)
Lemma C7_totalPay_is_sum_witness :
  Data.totalPay (Data.clean_row (Sample.employee (Some "Female") (Some 100%Q) (Some 5%Q)))
  = Some (100 + 5)%Q.
Proof.
  destruct (C7_totalPay_is_sum
              [Sample.employee (Some "Female") (Some 100%Q) (Some 5%Q)]
              (Data.clean_row (Sample.employee (Some "Female") (Some 100%Q) (Some 5%Q)))
              (or_introl eq_refl)) as [_ [_ H]].
  apply (H 100%Q 5%Q); reflexivity.
Defined.

(** C8 (amended): [male] is 1 exactly when the gender cell is the string
    "Male" and 0 otherwise (other spellings, "Female", missing); no
    regression reads the gender column, so in every fit such a row is on the
    female side; the gender-grouped tables, however, group on the raw gender
    value: a row belongs to the group of [v] exactly when its gender cell is
    [v]. *)
Theorem C8_male_dummy_and_gender_groups :
  (forall r, Data.male (Data.clean_row r) = Data.male_of (Data.gender r)) /\
  (forall g, Data.male_of g = 1%Z <-> g = Some "Male") /\
  (forall g, Data.male_of g = 0%Z <-> g <> Some "Male") /\
  (forall e n f fm, In (e, n, f) (Script.fits Script.script_actions) ->
     Formula.parse f = Some fm -> ~ In "gender" (Formula.columns fm)) /\
  (forall d v r, In r (Agg.group ["gender"] d [v]) <->
     In r d /\ Data.gender (Data.raw r) = Some v).
Proof.
  split; [reflexivity |].
  split.
  { intros [s |]; simpl; [| split; discriminate].
    destruct (String.eqb s "Male") eqn:E.
    - apply String.eqb_eq in E; subst; split; reflexivity.
    - apply String.eqb_neq in E. split; [discriminate | congruence]. }
  split.
  { intros [s |]; simpl; [| split; [discriminate | reflexivity]].
    destruct (String.eqb s "Male") eqn:E.
    - apply String.eqb_eq in E; subst. split; [discriminate | tauto].
    - apply String.eqb_neq in E. split; [congruence | reflexivity]. }
  split.
  { intros e n f fm Hf Hp.
    destruct (fits_formulas e n f Hf) as [_ [fm' [Hp' [_ [_ [_ Hg]]]]]].
    rewrite Hp in Hp'. injection Hp' as <-. exact Hg. }
  intros d v r. rewrite AggFacts.group_In. simpl.
  unfold Agg.key_col. simpl.
  destruct (Data.gender (Data.raw r)); split; intros [H1 H2]; split; congruence.
Qed.

(** C8 (counterexample): a row whose gender is spelled "male" has
    [male = 0] but is not in the "Female" group of the grouped tables; it
    forms a group of its own. *)
Lemma C8_lowercase_male_not_grouped_as_female :
  let r := Data.clean_row (Sample.employee (Some "male") (Some 90%Q) (Some 0%Q)) in
  let d := [Data.clean_row (Sample.employee (Some "Female") (Some 100%Q) (Some 5%Q)); r] in
  Data.male r = 0%Z /\
  ~ In r (Agg.group ["gender"] d ["Female"]) /\
  In ["male"] (Agg.group_keys ["gender"] d).
Proof.
  cbv zeta. split; [reflexivity |]. split.
  - rewrite AggFacts.group_In. intros [_ H]. discriminate H.
  - simpl. auto.
Qed.

Lemma Qle_bool_mono (a b x : Q) :
  (a <= b)%Q -> Qle_bool b x = true -> Qle_bool a x = true.
Proof.
  intros Hab Hb. apply Qle_bool_iff in Hb. apply Qle_bool_iff.
  exact (Qle_trans _ _ _ Hab Hb).
Qed.

(** The five cutoff conditions of lines 34-38 on a non-missing age. *)
Ltac age_cases x :=
  let E25 := fresh "E" in let E35 := fresh "E" in
  let E45 := fresh "E" in let E55 := fresh "E" in
  destruct (Qle_bool 25 x) eqn:E25;
  destruct (Qle_bool 35 x) eqn:E35;
  destruct (Qle_bool 45 x) eqn:E45;
  destruct (Qle_bool 55 x) eqn:E55;
  try (exfalso;
       match goal with
       | H1 : Qle_bool ?a x = false, H2 : Qle_bool ?b x = true |- _ =>
           assert (Qle_bool a x = true)
             by (apply (Qle_bool_mono a b x);
                 [apply Qle_bool_iff; reflexivity | exact H2]);
           congruence
       end).

(** C9: [age_bin] is 0 on a missing age; on an age [x] exactly one of the five
    conditions [x < 25], [25 <= x < 35], [35 <= x < 45], [45 <= x < 55],
    [x >= 55] holds, and [age_bin] is the position (1 to 5) of that
    condition; so [age_bin] always lies in [0..5]. *)
Theorem C9_age_bin_values :
  Data.age_bin_of None = 0%Z /\
  (forall a, (0 <= Data.age_bin_of a <= 5)%Z) /\
  (forall x : Q,
     let conds := [Data.cell_lt (Some x) 25;
                   Data.cell_ge (Some x) 25 && Data.cell_lt (Some x) 35;
                   Data.cell_ge (Some x) 35 && Data.cell_lt (Some x) 45;
                   Data.cell_ge (Some x) 45 && Data.cell_lt (Some x) 55;
                   Data.cell_ge (Some x) 55] in
     List.length (filter (fun c => c) conds) = 1%nat /\
     (1 <= Data.age_bin_of (Some x) <= 5)%Z /\
     nth (Z.to_nat (Data.age_bin_of (Some x)) - 1) conds false = true).
Proof.
  split; [reflexivity |].
  split.
  - intros [x |]; [| unfold Data.age_bin_of, Data.set_where; simpl; lia].
    unfold Data.age_bin_of, Data.set_where, Data.cell_lt, Data.cell_ge.
    age_cases x; simpl; lia.
  - intro x. cbv zeta.
    unfold Data.age_bin_of, Data.set_where, Data.cell_lt, Data.cell_ge.
    age_cases x; simpl; (split; [reflexivity | split; [lia | reflexivity]]).
Qed.

Lemma np_log_nonpos (x : Q) : (x <= 0)%Q -> Data.is_finite (Data.np_log (Some x)) = false.
Proof.
  intro H. simpl. apply Qle_bool_iff in H. rewrite H. simpl.
  destruct (Qeq_bool x 0); reflexivity.
Qed.

Lemma np_log_pos (x : Q) : (0 < x)%Q -> Data.is_finite (Data.np_log (Some x)) = true.
Proof.
  intro H. simpl. destruct (Qle_bool x 0) eqn:E; [| reflexivity].
  apply Qle_bool_iff in E. exfalso. apply (Qlt_not_le _ _ H E).
Qed.

(** The columns read by the five fits: the response [log_base] and the
    regressors' columns. *)
Definition fit_columns : list string :=
  ["log_base"; "male"; "perfEval"; "age_bin"; "edu"; "dept"; "seniority";
   "jobTitle"].

Lemma fits_columns e n f :
  In (e, n, f) (Script.fits Script.script_actions) ->
  exists fm, Formula.parse f = Some fm /\ Formula.lhs fm = "log_base" /\
    forall col, In col (Formula.columns fm) -> In col fit_columns.
Proof.
  intro H. rewrite fits_of_script in H. simpl in H.
  repeat (destruct H as [H | H];
          [injection H as <- <- <-; parsed_formula; split; [reflexivity |];
           intros col Hc; simpl in Hc;
           repeat (destruct Hc as [Hc | Hc]; [subst col; simpl; tauto |]);
           contradiction |]).
  contradiction.
Qed.

(** A NaN response makes every fit drop the row. *)
Lemma fits_drop_nan_response (c : Data.row) :
  Data.log_base c = Data.NaN ->
  forall e n f, In (e, n, f) (Script.fits Script.script_actions) ->
  Cells.fit_keeps_row c f = false /\ Cells.fit_sees_nonfinite c f = false.
Proof.
  intros Hc e n f Hf.
  destruct (fits_columns e n f Hf) as [fm [Hp [Hl _]]].
  assert (Cells.fit_keeps_row c f = false) as Hk.
  { unfold Cells.fit_keeps_row. rewrite Hp.
    unfold Formula.columns. rewrite Hl. simpl.
    unfold Cells.cell_na. simpl. rewrite Hc. reflexivity. }
  split; [exact Hk |].
  unfold Cells.fit_sees_nonfinite. rewrite Hp, Hk. reflexivity.
Qed.

(** A [-inf] response reaches every fit, provided the other columns the
    fits read are present at the row. *)
Lemma fits_see_neginf_response (c : Data.row) :
  Data.log_base c = Data.NegInf ->
  (forall col, In col ["perfEval"; "edu"; "dept"; "seniority"; "jobTitle"] ->
     Agg.present c col = true) ->
  forall e n f, In (e, n, f) (Script.fits Script.script_actions) ->
  Cells.fit_sees_nonfinite c f = true.
Proof.
  intros Hc Hpres e n f Hf.
  destruct (fits_columns e n f Hf) as [fm [Hp [Hl Hcols]]].
  unfold Cells.fit_sees_nonfinite. rewrite Hp.
  apply andb_true_intro. split.
  - unfold Cells.fit_keeps_row. rewrite Hp.
    apply forallb_forall. intros col Hcol.
    apply Bool.negb_true_iff.
    specialize (Hcols col Hcol). unfold fit_columns in Hcols.
    simpl in Hcols.
    repeat (destruct Hcols as [Hcols | Hcols];
            [subst col; unfold Cells.cell_na; simpl;
             first [rewrite Hc; reflexivity
                   | reflexivity
                   | rewrite Hpres; [reflexivity | simpl; tauto]] |]).
    contradiction.
  - unfold Formula.columns. rewrite Hl. simpl.
    unfold Cells.cell_inf. simpl. rewrite Hc. reflexivity.
Qed.

Lemma np_log_zero (x : Q) : (x == 0)%Q -> Data.np_log (Some x) = Data.NegInf.
Proof.
  intro H0. simpl.
  assert (Qle_bool x 0 = true) as E1
    by (apply Qle_bool_iff; rewrite H0; apply Qle_refl).
  assert (Qeq_bool x 0 = true) as E2 by (apply Qeq_bool_iff; exact H0).
  rewrite E1, E2. reflexivity.
Qed.

Lemma np_log_neg (x : Q) : (x < 0)%Q -> Data.np_log (Some x) = Data.NaN.
Proof.
  intro H0. simpl.
  assert (Qle_bool x 0 = true) as E1
    by (apply Qle_bool_iff; apply Qlt_le_weak; exact H0).
  assert (Qeq_bool x 0 = false) as E2.
  { destruct (Qeq_bool x 0) eqn:E; [| reflexivity].
    apply Qeq_bool_iff in E. exfalso. apply (Qlt_not_eq _ _ H0 E). }
  rewrite E1, E2. reflexivity.
Qed.

(** C10 (amended): at a row with base pay [p] and bonus [b],
    [log_bonus = np.log(b + 1)] is finite whenever [b >= 0].  [log_base] is
    [-inf] when [p = 0] and NaN when [p < 0].  The fits drop rows with a NaN
    or missing cell they read (patsy's default missing-value handling), so a
    row with [p < 0] reaches no fit, while a row with [p = 0] whose other
    read cells are present reaches every one of the five fits with response
    [-inf].  [log_total] is not finite when [p + b <= 0], but no fit reads
    [log_total] (nor [log_bonus]). *)
Theorem C10_log_columns_finiteness (r : Data.raw_row) (p b : Q)
    (Hp : Data.basePay r = Some p) (Hb : Data.bonus r = Some b) :
  let c := Data.clean_row r in
  ((0 <= b)%Q -> Data.is_finite (Data.log_bonus c) = true) /\
  ((p == 0)%Q -> Data.log_base c = Data.NegInf) /\
  ((p < 0)%Q -> Data.log_base c = Data.NaN) /\
  ((p < 0)%Q -> forall e n f, In (e, n, f) (Script.fits Script.script_actions) ->
     Cells.fit_keeps_row c f = false /\ Cells.fit_sees_nonfinite c f = false) /\
  ((p == 0)%Q ->
     (forall col, In col ["perfEval"; "edu"; "dept"; "seniority"; "jobTitle"] ->
        Agg.present c col = true) ->
     forall e n f, In (e, n, f) (Script.fits Script.script_actions) ->
     Cells.fit_sees_nonfinite c f = true) /\
  ((p + b <= 0)%Q -> Data.is_finite (Data.log_total c) = false) /\
  (forall e n f fm, In (e, n, f) (Script.fits Script.script_actions) ->
     Formula.parse f = Some fm ->
     ~ In "log_total" (Formula.columns fm) /\ ~ In "log_bonus" (Formula.columns fm)).
Proof.
  cbv zeta.
  assert (Data.log_base (Data.clean_row r) = Data.np_log (Some p)) as Hlb
    by (unfold Data.clean_row; simpl; rewrite Hp; reflexivity).
  split.
  { intro H0. unfold Data.clean_row. simpl. rewrite Hb. apply np_log_pos.
    apply Qlt_le_trans with (y := (0 + 1)%Q); [reflexivity |].
    apply Qplus_le_compat; [exact H0 | apply Qle_refl]. }
  split; [intro H0; rewrite Hlb; apply np_log_zero; exact H0 |].
  split; [intro H0; rewrite Hlb; apply np_log_neg; exact H0 |].
  split.
  { intros H0. apply fits_drop_nan_response. rewrite Hlb. apply np_log_neg. exact H0. }
  split.
  { intros H0 Hpres. apply fits_see_neginf_response; [| exact Hpres].
    rewrite Hlb. apply np_log_zero. exact H0. }
  split.
  { intro H0. unfold Data.clean_row. simpl. rewrite Hp, Hb. simpl.
    apply np_log_nonpos. exact H0. }
  intros e n f fm Hf Hpf.
  destruct (fits_formulas e n f Hf) as [_ [fm' [Hp' [_ [Ht [Hbo _]]]]]].
  rewrite Hpf in Hp'. injection Hp' as <-. split; assumption.
Qed.

(** Witness of C10: a row with zero base pay and zero bonus, all other cells
    present, reaches the first fit with response [-inf]. *)
Lemma C10_log_columns_finiteness_witness :
  Cells.fit_sees_nonfinite
    (Data.clean_row (Sample.employee (Some "Female") (Some 0%Q) (Some 0%Q)))
    model1_formula = true.
Proof.
  destruct (C10_log_columns_finiteness
              (Sample.employee (Some "Female") (Some 0%Q) (Some 0%Q)) 0%Q 0%Q
              eq_refl eq_refl) as [_ [_ [_ [_ [H _]]]]].
  apply (H (Qeq_refl 0%Q)) with (e := "ols") (n := "model1").
  - intros col Hcol. simpl in Hcol.
    repeat (destruct Hcol as [Hcol | Hcol]; [subst col; reflexivity |]).
    contradiction.
  - simpl. left. reflexivity.
Defined.

(** C10 (counterexample): a non-finite log column does not always reach the
    fits.  Base pay 1 and bonus -2 make [log_total] NaN, yet every fit keeps
    the row with only finite, non-missing cells; base pay -5 makes
    [log_base] NaN, and every fit drops the row. *)
Lemma C10_nonfinite_log_total_reaches_no_fit :
  let c := Data.clean_row (Sample.employee (Some "Female") (Some 1%Q) (Some (-2)%Q)) in
  let c' := Data.clean_row (Sample.employee (Some "Female") (Some (-5)%Q) (Some 0%Q)) in
  Data.is_finite (Data.log_total c) = false /\
  Data.is_finite (Data.log_base c') = false /\
  (forall e n f, In (e, n, f) (Script.fits Script.script_actions) ->
     Cells.fit_keeps_row c f = true /\ Cells.fit_sees_nonfinite c f = false /\
     Cells.fit_keeps_row c' f = false /\ Cells.fit_sees_nonfinite c' f = false).
Proof.
  cbv zeta. split; [reflexivity |]. split; [reflexivity |].
  intros e n f Hf. rewrite fits_of_script in Hf. simpl in Hf.
  repeat (destruct Hf as [Hf | Hf];
          [injection Hf as <- <- <-; repeat split; reflexivity |]).
  contradiction.
Qed.

(* ---------------------------------------------------------------------------
   Further properties of the script
   --------------------------------------------------------------------------- *)

Module ReportFacts.
Import Report.

Definition row_le (a b : table_row) : Prop := desc_asc_le (fst a) (fst b) = true.

Lemma desc_asc_total a b : desc_asc_le a b = false -> desc_asc_le b a = true.
Proof.
  destruct a as [| x1 [| y1 [|]]]; destruct b as [| x2 [| y2 [|]]];
    simpl; try discriminate; try reflexivity.
  rewrite (String.compare_antisym x2 x1), (String.compare_antisym y2 y1).
  destruct (String.compare x1 x2); simpl; try discriminate; [| reflexivity].
  destruct (String.compare y1 y2); simpl; try discriminate; reflexivity.
Qed.

Lemma insert_row_perm x l : Permutation (insert_row x l) (x :: l).
Proof.
  induction l as [| y l IH]; simpl; [reflexivity |].
  destruct (desc_asc_le (fst x) (fst y)); [reflexivity |].
  rewrite IH. apply perm_swap.
Qed.

Lemma sort_rows_perm l : Permutation (sort_rows l) l.
Proof.
  induction l as [| x l IH]; simpl; [reflexivity |].
  rewrite insert_row_perm, IH. reflexivity.
Qed.

Lemma insert_row_hd y x l :
  HdRel row_le y l -> row_le y x -> HdRel row_le y (insert_row x l).
Proof.
  intros Hl Hyx. destruct l as [| z l]; simpl.
  - constructor; exact Hyx.
  - destruct (desc_asc_le (fst x) (fst z)); constructor; [exact Hyx |].
    inversion Hl; assumption.
Qed.

Lemma insert_row_sorted x l : Sorted row_le l -> Sorted row_le (insert_row x l).
Proof.
  induction l as [| y l IH]; intro Hs; simpl.
  - constructor; constructor.
  - destruct (desc_asc_le (fst x) (fst y)) eqn:E.
    + constructor; [exact Hs | constructor; exact E].
    + inversion Hs as [| ? ? Hl Hhd]; subst.
      constructor; [exact (IH Hl) |].
      apply insert_row_hd; [exact Hhd | apply desc_asc_total; exact E].
Qed.

Lemma sort_rows_sorted l : Sorted row_le (sort_rows l).
Proof.
  induction l as [| x l IH]; simpl; [constructor |].
  apply insert_row_sorted; exact IH.
Qed.

End ReportFacts.

(** The department and job-title tables (lines 101-111) hold exactly the rows
    of the grouped aggregation, reordered so that each row's key comes no
    later than the next one's in the order of
    [sort_values(by=[k, 'gender'], ascending=[False, True])]. *)
Theorem sorted_tables_are_sorted_permutations (d : list Data.row) :
  Permutation (Report.summary_dept_table d) (Agg.groupby_agg Agg.summary_dept d) /\
  Sorted ReportFacts.row_le (Report.summary_dept_table d) /\
  Permutation (Report.summary_job_table d) (Agg.groupby_agg Agg.summary_job d) /\
  Sorted ReportFacts.row_le (Report.summary_job_table d).
Proof.
  unfold Report.summary_dept_table, Report.summary_job_table.
  repeat split; first [apply ReportFacts.sort_rows_perm | apply ReportFacts.sort_rows_sorted].
Qed.

(** The control rows appended to results.html (lines 154-162) agree with the
    three models: under a "Controls:" header, each of the Education,
    Department and Job Title rows has, for each model in column order, "Yes"
    exactly when that model's formula has the term [C(edu)], [C(dept)] or
    [C(jobTitle)]; there is one column per model name. *)
Theorem control_rows_match_models :
  Report.html_rows Report.control_info =
    ["Controls:"; ""; ""; ""] ::
    map (fun '(label, col) => label :: map (Report.yes_no col) Report.models)
        [("Education", "edu"); ("Department", "dept"); ("Job Title", "jobTitle")] /\
  List.length Report.model_names = List.length Report.models.
Proof. split; vm_compute; reflexivity. Qed.

(** No output file is written twice: the six report files have distinct
    names. *)
Theorem written_files_distinct :
  written_files Script.script_actions =
    ["summary.html"; "results.html"; "dept_clean.csv"; "dept.html";
     "job_clean.csv"; "job.html"] /\
  NoDup (written_files Script.script_actions).
Proof.
  split; [reflexivity |].
  vm_compute.
  repeat constructor; intro H; simpl in H;
    repeat (destruct H as [H | H]; [discriminate |]); exact H.
Qed.

Module GroupFacts.
Import Data Agg.
Local Open Scope nat_scope.

Definition has_key (keys : list string) (r : row) : bool :=
  match key_of r keys with Some _ => true | None => false end.

Lemma list_sum_map_add {A} (f g : A -> nat) (l : list A) :
  list_sum (map (fun x => f x + g x) l) = list_sum (map f l) + list_sum (map g l).
Proof. induction l as [| x l IH]; simpl; [reflexivity | rewrite IH; lia]. Qed.

Lemma list_sum_map_zero {A} (f : A -> nat) (l : list A) :
  (forall x, In x l -> f x = 0) -> list_sum (map f l) = 0.
Proof.
  induction l as [| x l IH]; intro H; simpl; [reflexivity |].
  rewrite H, IH; [reflexivity | intros y Hy; apply H; right; exact Hy | left; reflexivity].
Qed.

Lemma indicator_sum r keys k0 (K : list (list string)) :
  key_of r keys = Some k0 -> NoDup K ->
  list_sum (map (fun k => if key_matches r keys k then 1 else 0) K) =
  if existsb (strings_eqb k0) K then 1 else 0.
Proof.
  intros Hr HK. induction HK as [| k K Hk HK IH]; simpl; [reflexivity |].
  destruct (key_matches r keys k) eqn:E.
  - apply AggFacts.key_matches_key_of in E. rewrite Hr in E. injection E as ->.
    assert (strings_eqb k k = true) as Ek by (apply AggFacts.strings_eqb_eq; reflexivity).
    rewrite Ek. simpl.
    rewrite list_sum_map_zero; [reflexivity |].
    intros k' Hk'. destruct (key_matches r keys k') eqn:E'; [| reflexivity].
    apply AggFacts.key_matches_key_of in E'. rewrite Hr in E'. injection E' as <-.
    contradiction.
  - rewrite IH. simpl.
    destruct (strings_eqb k0 k) eqn:Ek; [| reflexivity].
    apply AggFacts.strings_eqb_eq in Ek. subst k.
    rewrite (proj2 (AggFacts.key_matches_key_of r keys k0) Hr) in E. discriminate.
Qed.

Lemma group_partition keys (K : list (list string)) (d : list row) :
  NoDup K ->
  (forall r k, In r d -> key_of r keys = Some k -> In k K) ->
  list_sum (map (fun k => List.length (group keys d k)) K) =
  List.length (filter (has_key keys) d).
Proof.
  intros HK. induction d as [| r d IH]; intro Hin; simpl.
  - apply list_sum_map_zero. reflexivity.
  - transitivity (list_sum (map (fun k => (if key_matches r keys k then 1 else 0)
                                          + List.length (group keys d k)) K)).
    { f_equal. apply map_ext. intro k. unfold group. simpl.
      destruct (key_matches r keys k); reflexivity. }
    rewrite list_sum_map_add, IH
      by (intros r' k Hr' Hk; apply (Hin r' k); [right; exact Hr' | exact Hk]).
    destruct (has_key keys r) eqn:Hh; unfold has_key in Hh;
      destruct (key_of r keys) as [k0 |] eqn:Hr; try discriminate.
    + rewrite (indicator_sum r keys k0 K Hr HK).
      assert (existsb (strings_eqb k0) K = true) as E.
      { apply existsb_exists. exists k0. split.
        - apply (Hin r k0); [left; reflexivity | exact Hr].
        - apply AggFacts.strings_eqb_eq; reflexivity. }
      rewrite E. reflexivity.
    + rewrite list_sum_map_zero; [reflexivity |].
      intros k _. destruct (key_matches r keys k) eqn:E; [| reflexivity].
      apply AggFacts.key_matches_key_of in E. congruence.
Qed.

Lemma group_pair (c : string) d dd g :
  group [c; "gender"] d [dd; g] = group [c] (group ["gender"] d [g]) [dd].
Proof.
  unfold group. induction d as [| r d IH]; simpl; [reflexivity |].
  destruct (key_col r c) as [s |] eqn:Ec;
    destruct (key_col r "gender") as [t |] eqn:Eg; simpl;
    rewrite ?andb_true_r;
    try destruct (String.eqb t g) eqn:Et; try destruct (String.eqb s dd) eqn:Ed;
    simpl; rewrite ?Ec, ?Eg, ?andb_true_r, ?Ed, ?Et; simpl;
    first [exact IH | f_equal; exact IH].
Qed.

End GroupFacts.

(** The groups of [groupby(keys)] partition the rows whose key cells are all
    present: the group sizes, summed over the table's keys, give the number
    of such rows (rows with a missing key are in no group). *)
Theorem groups_partition_keyed_rows (keys : list string) (d : list Data.row) :
  list_sum (map (fun k => List.length (Agg.group keys d k)) (Agg.group_keys keys d)) =
  List.length (filter (GroupFacts.has_key keys) d).
Proof.
  apply GroupFacts.group_partition.
  - apply AggFacts.distinct_keys_NoDup.
  - intros r k Hr Hk. apply AggFacts.group_keys_In. exists r; auto.
Qed.

(** The (c, gender) groups refine the gender groups: for a gender [g], the
    sizes of the groups [(v, g)] over all observed values [v] of [c] add up to
    the number of rows of gender [g] whose [c] cell is present (so the
    department and job-title tables' counts of a gender add up to that
    gender's headcount among rows with a department or job title). *)
Theorem pair_groups_refine_gender_groups (c g : string) (d : list Data.row) :
  list_sum (map (fun v => List.length (Agg.group [c; "gender"] d [v; g]))
                (map (fun k => hd "" k) (Agg.group_keys [c] d))) =
  List.length (filter (fun r => match Agg.key_col r c with Some _ => true | None => false end)
                      (Agg.group ["gender"] d [g])).
Proof.
  assert (Hk : forall k, In k (Agg.group_keys [c] d) -> k = [hd "" k]).
  { intros k Hk. apply AggFacts.group_keys_In in Hk as [r [_ Hr]].
    simpl in Hr. destruct (Agg.key_col r c); [| discriminate].
    injection Hr as <-. reflexivity. }
  rewrite map_map.
  transitivity (list_sum (map (fun k => List.length
                   (Agg.group [c] (Agg.group ["gender"] d [g]) k))
                   (Agg.group_keys [c] d))).
  { f_equal. apply map_ext_in. intros k Hin.
    rewrite GroupFacts.group_pair, <- (Hk k Hin). reflexivity. }
  rewrite GroupFacts.group_partition.
  - apply f_equal. apply filter_ext. intro r.
    unfold GroupFacts.has_key. simpl. destruct (Agg.key_col r c); reflexivity.
  - apply AggFacts.distinct_keys_NoDup.
  - intros r k Hr Hkr. apply AggFacts.group_keys_In. exists r. split; [| exact Hkr].
    apply AggFacts.group_In in Hr. tauto.
Qed.

(** The "Male" row of the gender tables and the regression dummy count the
    same rows: on the cleaned frame, the "Male" group has exactly the rows
    with [male = 1]. *)
Theorem male_group_is_male_dummy (d : list Data.raw_row) :
  Agg.group ["gender"] (Data.clean d) ["Male"] =
  filter (fun r => Z.eqb (Data.male r) 1) (Data.clean d).
Proof.
  unfold Agg.group. apply filter_ext_in. intros r Hr.
  unfold Data.clean in Hr. apply in_map_iff in Hr as [x [<- _]].
  unfold Agg.key_matches, Agg.key_col. simpl.
  destruct (Data.gender x) as [s |]; [| reflexivity].
  rewrite andb_true_r. unfold Data.male_of. destruct (String.eqb s "Male"); reflexivity.
Qed.

Module StatFacts.
Import Data Agg.

Lemma insert_Q_perm x l : Permutation (insert_Q x l) (x :: l).
Proof.
  induction l as [| y l IH]; simpl; [reflexivity |].
  destruct (Qle_bool x y); [reflexivity |].
  rewrite IH. apply perm_swap.
Qed.

Lemma sort_Q_perm l : Permutation (sort_Q l) l.
Proof.
  induction l as [| x l IH]; simpl; [reflexivity |].
  rewrite insert_Q_perm, IH. reflexivity.
Qed.

Lemma insert_Q_sorted x l : Sorted Qle l -> Sorted Qle (insert_Q x l).
Proof.
  induction l as [| y l IH]; intro Hs; simpl.
  - constructor; constructor.
  - destruct (Qle_bool x y) eqn:E.
    + constructor; [exact Hs | constructor; apply Qle_bool_iff; exact E].
    + assert (y <= x)%Q as Hyx.
      { apply Qlt_le_weak, Qnot_le_lt. intro H. apply Qle_bool_iff in H. congruence. }
      inversion Hs as [| ? ? Hl Hhd]; subst.
      constructor; [exact (IH Hl) |].
      destruct l as [| z l]; simpl; [constructor; exact Hyx |].
      destruct (Qle_bool x z); constructor; [exact Hyx |].
      inversion Hhd; assumption.
Qed.

Lemma sort_Q_sorted l : Sorted Qle (sort_Q l).
Proof.
  induction l as [| x l IH]; simpl; [constructor |].
  apply insert_Q_sorted; exact IH.
Qed.

Lemma nth_sorted_in (l : list Q) i :
  (i < List.length l)%nat -> In (nth i (sort_Q l) 0%Q) l.
Proof.
  intro Hi. apply (Permutation_in _ (sort_Q_perm l)).
  apply nth_In. rewrite (Permutation_length (sort_Q_perm l)). exact Hi.
Qed.

End StatFacts.

(** A grouped median (lines 72, 80, 88) is the middle of the sorted
    non-missing values: there is a sorted arrangement [s] of the values with
    [m] its middle element when their number [n] is odd (so [m] is one of
    the values) and the mean of its two middle elements when [n] is even;
    in either case [m] lies within any bounds of the values. *)
Theorem median_is_middle (c : string) (rs : list Data.row) (m : Q)
    (Hm : Agg.agg Agg.Median c rs = Agg.OQ (Some m)) :
  let vs := Agg.values c rs in
  let n := List.length vs in
  exists s, Sorted Qle s /\ Permutation s vs /\
    (Nat.odd n = true -> m = nth (n / 2) s 0%Q /\ In m vs) /\
    (Nat.odd n = false -> m = ((nth (n / 2 - 1) s 0 + nth (n / 2) s 0) / 2)%Q) /\
    (forall lo hi, (forall v, In v vs -> (lo <= v <= hi)%Q) -> (lo <= m <= hi)%Q).
Proof.
  cbv zeta. unfold Agg.agg in Hm.
  remember (Agg.values c rs) as vs eqn:Ev. clear Ev.
  apply (f_equal (fun o => match o with Agg.OQ x => x | Agg.ON _ => None end)) in Hm.
  cbv beta iota zeta in Hm.
  destruct vs as [| v vs']; [discriminate |].
  set (l := v :: vs') in *.
  assert (Hn : (0 < List.length l)%nat) by (simpl; lia).
  assert (Hhalf : (List.length l / 2 < List.length l)%nat) by (apply Nat.div_lt; lia).
  assert (Hhalf1 : (List.length l / 2 - 1 < List.length l)%nat) by lia.
  exists (Agg.sort_Q l).
  split; [apply StatFacts.sort_Q_sorted |].
  split; [apply StatFacts.sort_Q_perm |].
  destruct (Nat.odd (List.length l)) eqn:Hodd;
    apply (f_equal (fun o => match o with Some x => x | None => 0%Q end)) in Hm;
    cbv beta iota in Hm; symmetry in Hm.
  - assert (In m l) as Hin by (rewrite Hm; apply StatFacts.nth_sorted_in; exact Hhalf).
    split; [intros _; split; assumption |].
    split; [discriminate |].
    intros lo hi Hb. apply Hb; exact Hin.
  - split; [discriminate |].
    split; [intros _; exact Hm |].
    intros lo hi Hb.
    pose proof (Hb _ (StatFacts.nth_sorted_in l _ Hhalf)) as [H1 H2].
    pose proof (Hb _ (StatFacts.nth_sorted_in l _ Hhalf1)) as [H3 H4].
    rewrite Hm. split.
    + apply Qle_shift_div_l; [reflexivity | lra].
    + apply Qle_shift_div_r; [reflexivity | lra].
Qed.

(** Witness: base pays 300, 100, 200 have median 200, the middle value. *)
Lemma median_is_middle_witness :
  Agg.agg Agg.Median "basePay"
    (Data.clean [Sample.employee (Some "Male") (Some 300%Q) None;
                 Sample.employee (Some "Male") (Some 100%Q) None;
                 Sample.employee (Some "Male") (Some 200%Q) None]) =
  Agg.OQ (Some 200%Q) /\
  exists s, Sorted Qle s /\ Permutation s [300%Q; 100%Q; 200%Q] /\
    (Nat.odd 3 = true -> 200%Q = nth 1 s 0%Q /\ In 200%Q [300%Q; 100%Q; 200%Q]) /\
    (Nat.odd 3 = false -> 200%Q = ((nth 0 s 0 + nth 1 s 0) / 2)%Q) /\
    (forall lo hi, (forall v, In v [300%Q; 100%Q; 200%Q] -> (lo <= v <= hi)%Q) ->
                   (lo <= 200 <= hi)%Q).
Proof.
  split; [vm_compute; reflexivity |].
  exact (median_is_middle "basePay"
           (Data.clean [Sample.employee (Some "Male") (Some 300%Q) None;
                        Sample.employee (Some "Male") (Some 100%Q) None;
                        Sample.employee (Some "Male") (Some 200%Q) None])
           200%Q (eq_refl _)).
Defined.

(** Age bins are monotone: an older employee (both ages present) never gets a
    lower [age_bin] (lines 33-38). *)
Theorem age_bin_monotone (x y : Q) (Hxy : (x <= y)%Q) :
  (Data.age_bin_of (Some x) <= Data.age_bin_of (Some y))%Z.
Proof.
  unfold Data.age_bin_of, Data.set_where, Data.cell_lt, Data.cell_ge.
  age_cases x; age_cases y;
    try (exfalso;
         match goal with
         | H1 : Qle_bool ?a y = false, H2 : Qle_bool ?a x = true |- _ =>
             apply Qle_bool_iff in H2;
             assert (Qle_bool a y = true) by (apply Qle_bool_iff; exact (Qle_trans _ _ _ H2 Hxy));
             congruence
         end);
    simpl; lia.
Qed.

(** Witness: ages 20 and 40 fall in bins 1 and 3. *)
Lemma age_bin_monotone_witness :
  (Data.age_bin_of (Some 20%Q) <= Data.age_bin_of (Some 40%Q))%Z.
Proof.
  apply (age_bin_monotone 20%Q 40%Q). unfold Qle; simpl; lia.
Defined.

Lemma ln_le_mono (x y : R) : (0 < x)%R -> (x <= y)%R -> (ln x <= ln y)%R.
Proof.
  intros Hx Hxy. destruct (Rle_lt_or_eq_dec x y Hxy) as [Hlt | ->].
  - left. apply ln_increasing; assumption.
  - right. reflexivity.
Qed.

Lemma np_log_pos_value (x : Q) : (0 < x)%Q -> Data.np_log (Some x) = Data.Fin (ln (Q2R x)).
Proof.
  intro H. simpl. destruct (Qle_bool x 0) eqn:E; [| reflexivity].
  apply Qle_bool_iff in E. exfalso. apply (Qlt_not_le _ _ H E).
Qed.

(** On a row with positive base pay [p] and bonus [b >= 0], the three log
    columns (lines 44-46) are finite, [log_total] is at least [log_base], and
    [log_bonus] is at least 0. *)
Theorem log_columns_ordered (r : Data.raw_row) (p b : Q)
    (Hp : Data.basePay r = Some p) (Hb : Data.bonus r = Some b)
    (Hp0 : (0 < p)%Q) (Hb0 : (0 <= b)%Q) :
  exists xb xt xo,
    Data.log_base (Data.clean_row r) = Data.Fin xb /\
    Data.log_total (Data.clean_row r) = Data.Fin xt /\
    Data.log_bonus (Data.clean_row r) = Data.Fin xo /\
    (xb <= xt)%R /\ (0 <= xo)%R.
Proof.
  assert (Ht : (0 < p + b)%Q) by lra.
  assert (Ho : (0 < b + 1)%Q) by lra.
  exists (ln (Q2R p)), (ln (Q2R (p + b))), (ln (Q2R (b + 1))).
  unfold Data.clean_row; cbn [Data.log_base Data.log_total Data.log_bonus].
  rewrite Hp, Hb. cbn [Data.add_cells].
  rewrite (np_log_pos_value p Hp0), (np_log_pos_value _ Ht), (np_log_pos_value _ Ho).
  split; [reflexivity |]. split; [reflexivity |]. split; [reflexivity |].
  pose proof (Qlt_Rlt _ _ Hp0) as Rp. pose proof (Qle_Rle _ _ Hb0) as Rb.
  rewrite Q2R_plus. rewrite Q2R_plus.
  replace (Q2R 0) with 0%R in Rp, Rb by (unfold Q2R; simpl; lra).
  replace (Q2R 1) with 1%R by (unfold Q2R; simpl; lra).
  split.
  - apply ln_le_mono; lra.
  - rewrite <- ln_1. apply ln_le_mono; lra.
Qed.

(** Witness: base pay 100 and bonus 0. *)
Lemma log_columns_ordered_witness :
  exists xb xt xo,
    Data.log_base (Data.clean_row (Sample.employee (Some "Female") (Some 100%Q) (Some 0%Q))) = Data.Fin xb /\
    Data.log_total (Data.clean_row (Sample.employee (Some "Female") (Some 100%Q) (Some 0%Q))) = Data.Fin xt /\
    Data.log_bonus (Data.clean_row (Sample.employee (Some "Female") (Some 100%Q) (Some 0%Q))) = Data.Fin xo /\
    (xb <= xt)%R /\ (0 <= xo)%R.
Proof.
  apply (log_columns_ordered (Sample.employee (Some "Female") (Some 100%Q) (Some 0%Q))
           100%Q 0%Q eq_refl eq_refl); unfold Qlt, Qle; simpl; lia.
Defined.
